(** * Easy21 and its Monte-Carlo control script

    A shallow embedding of [ucl-compm050/easy21/easy21.py] (the
    environment) and [ucl-compm050/easy21/monte-carlo.py] (the control
    script), and the properties of the two that the specification states.

    Python integers are [Z]; the random module is a tape of raw entropy
    read left to right; the two [defaultdict]s of the control script are
    [gmap]s with the insert-on-read behaviour of [defaultdict] written out;
    Python floats are kept abstract (a type with the four operations the
    script uses). *)

From Stdlib Require Import ZArith QArith.
From stdpp Require Import base decidable countable gmap strings list.

Local Open Scope string_scope.
Local Open Scope Z_scope.

(** ** Outcomes of running Python code *)

(** The exceptions the two files can raise. [InvalidAction] is the error the
    specification names for [step]; no statement of the source raises it. *)
Inductive exn : Set :=
| AttributeError
| TypeError
| ZeroDivisionError
| IndexError
| ValueError
| UnboundLocalError
| InvalidAction.

(** A call returns or raises. *)
Inductive res (A : Type) : Type :=
| Ok (a : A)
| Raise (e : exn).

Arguments Ok {A} a.
Arguments Raise {A} e.

(** ** The random source *)

(** [tape g i] is the i-th piece of raw entropy and [pos g] the number of
    pieces consumed so far.  Every tape is a legal run of the generator, and
    every sequence of in-range results is produced by some tape. *)
Record rng : Type := mkRng { tape : nat -> Z; pos : nat }.

Definition advance (g : rng) : rng := mkRng (tape g) (S (pos g)).

Definition raw (g : rng) : Z := tape g (pos g).

(** [random.randint(a, b)]: an integer in [a..b] (the source only calls it
    with [a <= b]). *)
Definition randint (a b : Z) (g : rng) : Z * rng :=
  (a + raw g mod (b - a + 1), advance g).

Module Easy21.

(** [draw()]: a value 1..10, red (negative) when the colour roll is 1. *)
Definition draw (g : rng) : Z * rng :=
  let '(value, g1) := randint 1 10 g in
  let '(roll, g2) := randint 1 3 g1 in
  let color := if roll =? 1 then -1 else 1 in
  (value * color, g2).

(** [@dataclass(frozen=True) class State]. *)
Record State : Set := mkState { player : Z; dealer : Z; terminated : bool }.

(** [State.new()]: keyword arguments are evaluated left to right, the
    player's card first. *)
Definition new (g : rng) : State * rng :=
  let '(c1, g1) := draw g in
  let '(c2, g2) := draw g1 in
  (mkState (Z.abs c1) (Z.abs c2) false, g2).

(** [State.hit(self)]. *)
Definition hit (self : State) (g : rng) : State * rng :=
  if terminated self then (self, g)
  else
    let '(c, g1) := draw g in
    let player' := player self + c in
    let bust := (player' <? 1) || (player' >? 21) in
    (mkState player' (dealer self) bust, g1).

(** The [while dealer >= 1 and dealer < 17: dealer += draw()] loop of
    [State.stick].  [fuel] bounds the number of draws; [None] means the
    bound was reached with the loop still running. *)
Fixpoint dealer_loop (fuel : nat) (dealer : Z) (g : rng) : option (Z * rng) :=
  if (dealer >=? 1) && (dealer <? 17) then
    match fuel with
    | O => None
    | S fuel' =>
        let '(c, g1) := draw g in
        dealer_loop fuel' (dealer + c) g1
    end
  else Some (dealer, g).

(** [State.stick(self)]. *)
Definition stick (fuel : nat) (self : State) (g : rng) : option (State * rng) :=
  if terminated self then Some (self, g)
  else
    match dealer_loop fuel (dealer self) g with
    | Some (dealer', g1) => Some (mkState (player self) dealer' true, g1)
    | None => None
    end.

(** The dealer's total after [n] draws, whether or not the loop would still
    be running then. *)
Fixpoint dealer_after (n : nat) (dealer : Z) (g : rng) : Z * rng :=
  match n with
  | O => (dealer, g)
  | S n' =>
      let '(c, g1) := draw g in
      dealer_after n' (dealer + c) g1
  end.

(** ** Python objects *)

(** The four functions of the class body. *)
Inductive method : Set := m_new | m_hit | m_stick | m_value.

(** The objects that [step] can receive as an action or hand back.
    [OBound m s] is the bound method [s.m] (not its result); [OFunc m] is the
    plain function that a method is when read from the class, or a static
    method when read through an instance; [OPair] is a 2-tuple; [OClass] is
    the class [State] itself; [OBuiltin n] is the object stored under the
    double-underscore attribute [n] that a [State] inherits from [object] or
    receives from [@dataclass] (a dictionary, a string, a tuple, [None], a
    parameter record or a method of [object]). *)
Inductive obj : Set :=
| OInt (z : Z)
| OBool (b : bool)
| OStr (s : string)
| ONone
| OState (s : State)
| OBound (m : method) (self : State)
| OFunc (m : method)
| OPair (o1 o2 : obj)
| OClass
| OBuiltin (name : string).

(** [State.value(self)].  A call that passes all six tests falls off the end
    of the function and returns [None]. *)
Definition value (self : State) : obj :=
  if negb (terminated self) then OInt 0
  else if (player self <? 1) || (player self >? 21) then OInt (-1)
  else if (dealer self <? 1) || (dealer self >? 21) then OInt 1
  else if player self >? dealer self then OInt 1
  else if player self =? dealer self then OInt 0
  else if player self <? dealer self then OInt (-1)
  else ONone.

(** [actions = ("hit", "stick")]. *)
Definition actions : list string := ["hit"; "stick"].

(** The double-underscore attributes, [__class__] apart, of an instance of a
    frozen dataclass without slots (as listed by [dir] in CPython 3.11). *)
Definition inherited : list string :=
  ["__annotations__"; "__dataclass_fields__"; "__dataclass_params__";
   "__delattr__"; "__dict__"; "__dir__"; "__doc__"; "__eq__"; "__format__";
   "__ge__"; "__getattribute__"; "__getstate__"; "__gt__"; "__hash__";
   "__init__"; "__init_subclass__"; "__le__"; "__lt__"; "__match_args__";
   "__module__"; "__ne__"; "__new__"; "__reduce__"; "__reduce_ex__";
   "__repr__"; "__setattr__"; "__sizeof__"; "__str__"; "__subclasshook__";
   "__weakref__"].

(** Every name that [getattr] finds on a [State]. *)
Definition attributes : list string :=
  ["player"; "dealer"; "terminated"; "new"; "hit"; "stick"; "value";
   "__class__"] ++ inherited.

(** [getattr(state, name)] for a [State]: the three fields, the three
    methods (bound to the instance), the static method, the class and the
    inherited attributes; a name that is not a string is a [TypeError], an
    unknown name an [AttributeError]. *)
Definition getattr (state : State) (name : obj) : res obj :=
  match name with
  | OStr n =>
      if String.eqb n "player" then Ok (OInt (player state))
      else if String.eqb n "dealer" then Ok (OInt (dealer state))
      else if String.eqb n "terminated" then Ok (OBool (terminated state))
      else if String.eqb n "new" then Ok (OFunc m_new)
      else if String.eqb n "hit" then Ok (OBound m_hit state)
      else if String.eqb n "stick" then Ok (OBound m_stick state)
      else if String.eqb n "value" then Ok (OBound m_value state)
      else if String.eqb n "__class__" then Ok OClass
      else if existsb (String.eqb n) inherited then Ok (OBuiltin n)
      else Raise AttributeError
  | _ => Raise TypeError
  end.

(** The expression [o.value]: a [State] has the method, bound to it, and the
    class has it as a plain function; integers, booleans, strings, [None],
    tuples, functions, bound methods and the objects under the inherited
    attributes have no such attribute. *)
Definition attr_value (o : obj) : res obj :=
  match o with
  | OState s => Ok (OBound m_value s)
  | OClass => Ok (OFunc m_value)
  | _ => Raise AttributeError
  end.

(** [step(state, action)].  The attribute found by [getattr] is bound to
    [state] as it is (the source does not call it), and [state.value] is read
    from that object. *)
Definition step (state : State) (action : obj) : res (obj * obj) :=
  if terminated state then Ok (OState state, OInt 0)
  else
    match getattr state action with
    | Ok state' =>
        match attr_value state' with
        | Ok v => Ok (state', v)
        | Raise e => Raise e
        end
    | Raise e => Raise e
    end.

(** ** Episodes of the game *)

(** The two moves of the player, as calls of the methods of that name. *)
Inductive move : Set := Hit | Stick.

Definition play (fuel : nat) (m : move) (s : State) (g : rng)
  : option (State * rng) :=
  match m with
  | Hit => Some (hit s g)
  | Stick => stick fuel s g
  end.

(** The (state, action) pairs visited when the player's successive choices
    [moves] are played from [s] by calling [State.hit] and [State.stick],
    until a terminal state is reached or the choices run out. *)
Fixpoint episode (fuel : nat) (moves : list move) (s : State) (g : rng)
  : option (list (State * move)) :=
  match moves with
  | [] => Some []
  | m :: moves' =>
      if terminated s then Some []
      else
        match play fuel m s g with
        | Some (s', g') =>
            match episode fuel moves' s' g' with
            | Some visited => Some ((s, m) :: visited)
            | None => None
            end
        | None => None
        end
  end.

(** The states that [State.new], [State.hit], [State.stick] and [step] can
    produce, starting from a fresh deal. *)
Inductive reachable : State -> Prop :=
| reach_new g : reachable (new g).1
| reach_hit s g : reachable s -> reachable (hit s g).1
| reach_stick fuel s g s' g' :
    reachable s -> stick fuel s g = Some (s', g') -> reachable s'
| reach_step s a s' r :
    reachable s -> step s a = Ok (OState s', r) -> reachable s'.

(** ** Sample tapes *)


(** The tape of the cards listed: a card [c] takes two pieces, [|c| - 1] for
    the value and 1 (black) or 0 (red) for the colour; past the list the tape
    is all zeros (red 1). *)
Fixpoint cards (l : list Z) (i : nat) : Z :=
  match l, i with
  | [], _ => 0
  | c :: _, O => Z.abs c - 1
  | c :: _, S O => if c >? 0 then 1 else 0
  | _ :: l', S (S i') => cards l' i'
  end.

Definition s_10_7 : State := mkState 10 7 false.

(** A fresh generator whose first two cards are 10 and 7. *)
Definition g_10_7 : rng := mkRng (cards [10; 7]) 0.

End Easy21.

Module MonteCarlo.
Import Easy21.

#[global] Instance State_eq_dec : EqDecision State.
Proof. solve_decision. Defined.

#[global] Instance State_countable : Countable State.
Proof.
  refine (inj_countable'
            (fun s => (player s, dealer s, terminated s))
            (fun t => mkState t.1.1 t.1.2 t.2) _).
  by intros [].
Defined.

(** The keys of [N]: a state, or a (state, action) tuple.  [V] only ever
    holds tuples. *)
Inductive key : Set :=
| KState (s : State)
| KPair (s : State) (a : string).

#[global] Instance key_eq_dec : EqDecision key.
Proof. solve_decision. Defined.

#[global] Instance key_countable : Countable key.
Proof.
  refine (inj_countable'
            (fun k => match k with
                      | KState s => inl s
                      | KPair s a => inr (s, a)
                      end)
            (fun x => match x with
                      | inl s => KState s
                      | inr (s, a) => KPair s a
                      end) _).
  by intros [].
Defined.

Definition N0 : Z := 100.

(** [d[k]] on a [defaultdict]: a missing key is first stored with the
    default value. *)
Definition dd_get {A : Type} (default : A) (k : key) (d : gmap key A)
  : A * gmap key A :=
  match d !! k with
  | Some v => (v, d)
  | None => (default, <[k := default]> d)
  end.

(** [d[k] += 1]: read [d[k]], then store the sum under [k]. *)
Definition dd_incr (k : key) (d : gmap key Z) : gmap key Z :=
  let '(v, d1) := dd_get 0 k d in
  <[k := v + 1]> d1.

(** [random.random()] and [random.choice(seq)]. *)
Definition choice (seq : list string) (g : rng) : res string * rng :=
  match seq with
  | [] => (Raise IndexError, g)
  | x :: _ =>
      (Ok (nth (Z.to_nat (raw g mod Z.of_nat (length seq))) seq x), advance g)
  end.

Section Floats.

(** Python's floats, with the operations the script applies to them:
    [float()], true division of two integers (divisor not zero), [<], and
    the float in [0, 1) that [random()] builds from raw entropy. *)
Context {float : Type}.
Variable float0 : float.
Variable truediv : Z -> Z -> float.
Variable flt : float -> float -> bool.
Variable unit_float : Z -> float.

Definition random (g : rng) : float * rng := (unit_float (raw g), advance g).

(** The two module-level dictionaries. *)
Record store : Type := mkStore { V : gmap key float; N : gmap key Z }.

Definition store0 : store := mkStore ∅ ∅.

(** [alpha(state, action)]. *)
Definition alpha (st : store) (state : State) (action : string)
  : store * res float :=
  let '(n, N1) := dd_get 0 (KPair state action) (N st) in
  let st1 := mkStore (V st) N1 in
  if n =? 0 then (st1, Raise ZeroDivisionError) else (st1, Ok (truediv 1 n)).

(** [epsilon(state)]. *)
Definition epsilon (st : store) (state : State) : store * res float :=
  let '(n, N1) := dd_get 0 (KState state) (N st) in
  let st1 := mkStore (V st) N1 in
  if N0 + n =? 0 then (st1, Raise ZeroDivisionError)
  else (st1, Ok (truediv N0 (N0 + n))).

(** The scan of [max(actions, key=lambda a: V[(state, a)])] after its first
    item: a later item replaces the best one when its key is greater. *)
Fixpoint max_scan (st : store) (state : State) (best : string) (kbest : float)
    (rest : list string) : store * string :=
  match rest with
  | [] => (st, best)
  | a :: rest' =>
      let '(k, V1) := dd_get float0 (KPair state a) (V st) in
      let st1 := mkStore V1 (N st) in
      if flt kbest k then max_scan st1 state a k rest'
      else max_scan st1 state best kbest rest'
  end.

(** [next_action(state)]. *)
Definition next_action (st : store) (g : rng) (state : State)
  : store * rng * res string :=
  let '(st1, re) := epsilon st state in
  match re with
  | Ok e =>
      let '(u, g1) := random g in
      if flt u e then
        let '(ra, g2) := choice actions g1 in (st1, g2, ra)
      else
        match actions with
        | [] => (st1, g1, Raise ValueError)
        | a :: rest =>
            let '(k, V1) := dd_get float0 (KPair state a) (V st1) in
            let '(st2, best) := max_scan (mkStore V1 (N st1)) state a k rest in
            (st2, g1, Ok best)
        end
  | Raise x => (st1, g, Raise x)
  end.

(** [update(states, reward)]: the body is [pass]. *)
Definition update (st : store) (states : list obj) (reward : obj)
  : store * res obj :=
  (st, Ok ONone).

(** The two counter statements of the loop body,
    [N[state] += 1; N[(state, action)] += 1]. *)
Definition count_visit (state : State) (action : string) (st : store) : store :=
  let N1 := dd_incr (KState state) (N st) in
  let N2 := dd_incr (KPair state action) N1 in
  mkStore (V st) N2.

(** The [while not state.terminated] loop of [trial].  [state] is whatever
    object the last [step] bound to it; [reward] is unbound ([None] here)
    until a [step] returns.  The result is [None] when the loop is still
    running and cannot be followed further: [fuel], the bound on the number
    of iterations, is used up, or [state] holds the class, whose attribute
    [terminated] is the default [False], so that the loop goes on with
    counters kept under the class, for which the dictionaries here have no
    key.  (No run that starts from a [State] gets there: a step with "hit" or
    "stick" never hands back the class.)  Any other object has no attribute
    [terminated]. *)
Fixpoint trial_loop (fuel : nat) (st : store) (g : rng) (state : obj)
    (states : list obj) (reward : option obj)
  : option (store * rng * res (list obj * option obj)) :=
  match state with
  | OState s =>
      if terminated s then Some (st, g, Ok (states, reward))
      else
        match fuel with
        | O => None
        | S fuel' =>
            let '(st1, g1, ra) := next_action st g s in
            match ra with
            | Ok action =>
                let st2 := count_visit s action st1 in
                match step s (OStr action) with
                | Ok (state', reward') =>
                    trial_loop fuel' st2 g1 state' states (Some reward')
                | Raise x => Some (st2, g1, Raise x)
                end
            | Raise x => Some (st1, g1, Raise x)
            end
        end
  | OClass => None
  | _ => Some (st, g, Raise AttributeError)
  end.

(** [trial()]. *)
Definition trial (fuel : nat) (st : store) (g : rng)
  : option (store * rng * res obj) :=
  let '(state, g0) := new g in
  match trial_loop fuel st g0 (OState state) [OState state] None with
  | Some (st1, g1, Ok (states, Some reward)) =>
      let '(st2, r) := update st1 states reward in Some (st2, g1, r)
  | Some (st1, g1, Ok (_, None)) => Some (st1, g1, Raise UnboundLocalError)
  | Some (st1, g1, Raise x) => Some (st1, g1, Raise x)
  | None => None
  end.

(** The stores that runs of [trial] produce from the empty dictionaries
    (a run that ends in an exception keeps the entries it has written). *)
Inductive trained : store -> Prop :=
| trained_start : trained store0
| trained_trial fuel st g st' g' r :
    trained st -> trial fuel st g = Some (st', g', r) -> trained st'.

(** The value a lookup would see under [k], without the side effect. *)
Definition count (st : store) (k : key) : Z := default 0 (N st !! k).

End Floats.

(** ** Sample runs *)

(** Exact rationals in place of floats, for running the script on a sample
    tape: [random()] is the 53-bit fraction of the raw entropy. *)
Definition q_truediv (a b : Z) : Q := (inject_Z a / inject_Z b)%Q.

Definition q_lt (x y : Q) : bool := negb (Qle_bool y x).

Definition q_unit (z : Z) : Q := Qmake (z mod 2 ^ 53) (2 ^ 53).

Definition q_trial := trial 0%Q q_truediv q_lt q_unit.

Definition q_next_action := next_action 0%Q q_truediv q_lt q_unit.

(** The store after one run of [trial] dealt 10 and 7 on empty
    dictionaries, and the store after a second run on a tape that deals 10
    and 7 again and then makes [random()] return its largest value, so that
    the greedy action is taken. *)
Definition q_store1 : store :=
  count_visit s_10_7 "hit"
    (q_next_action store0 (mkRng (cards [10; 7]) 4) s_10_7).1.1.

Definition greedy_tape (i : nat) : Z :=
  match i with
  | 0%nat => 9
  | 1%nat => 1
  | 2%nat => 6
  | 3%nat => 1
  | _ => 2 ^ 53 - 1
  end.

Definition q_store2 : store :=
  count_visit s_10_7 "hit"
    (q_next_action q_store1 (mkRng greedy_tape 4) s_10_7).1.1.

End MonteCarlo.

(** * Properties of the environment *)

Module Easy21Facts.
Import Easy21.

Lemma draw_rng (g : rng) : (draw g).2 = advance (advance g).
Proof. reflexivity. Qed.

Lemma draw_range (g : rng) :
  1 <= (draw g).1 <= 10 \/ -10 <= (draw g).1 <= -1.
Proof.
  unfold draw, randint; cbn.
  pose proof (Z.mod_pos_bound (raw g) 10 ltac:(lia)).
  change (10 - 1 + 1) with 10.
  case_match; lia.
Qed.

Lemma step_terminal (s : State) (a : obj) :
  terminated s = true -> step s a = Ok (OState s, OInt 0).
Proof. intros H. unfold step. by rewrite H. Qed.

(** On a live state both legal actions end in an [AttributeError]: the
    bound method is never called, and it has no attribute [value]. *)
Lemma step_live (s : State) (a : string) :
  terminated s = false -> a ∈ actions -> step s (OStr a) = Raise AttributeError.
Proof.
  intros H Ha. unfold step. rewrite H.
  unfold actions in Ha. set_unfold. by destruct Ha as [-> | [-> | []]].
Qed.

(** C1 (the defect): on the live state (10, 7) [step] raises
    [AttributeError] for "stick" and for "hit", where the dealer cards +6, +5
    would make [stick] return the terminal state (10, 18), of value -1; on a
    terminal state it returns the state and 0, as the claim says. *)
Theorem step_does_not_call_the_method :
  step s_10_7 (OStr "stick") = Raise AttributeError /\
  step s_10_7 (OStr "hit") = Raise AttributeError /\
  fst <$> stick 2 s_10_7 (mkRng (cards [6; 5]) 0) = Some (mkState 10 18 true) /\
  value (mkState 10 18 true) = OInt (-1) /\
  step (mkState 10 18 true) (OStr "stick")
  = Ok (OState (mkState 10 18 true), OInt 0).
Proof. repeat split; reflexivity. Qed.

(** C5: [value] is 0 on a live state; on a terminal one it is -1 when the
    player's sum is outside 1..21, else +1 when the dealer's is, else the sign
    of the difference of the sums; it is always one of -1, 0, +1. *)
Theorem value_cases (s : State) :
  (terminated s = false -> value s = OInt 0) /\
  (terminated s = true -> ~ 1 <= player s <= 21 -> value s = OInt (-1)) /\
  (terminated s = true -> 1 <= player s <= 21 -> ~ 1 <= dealer s <= 21 ->
   value s = OInt 1) /\
  (terminated s = true -> 1 <= player s <= 21 -> 1 <= dealer s <= 21 ->
   (player s > dealer s -> value s = OInt 1) /\
   (player s = dealer s -> value s = OInt 0) /\
   (player s < dealer s -> value s = OInt (-1))) /\
  (value s = OInt (-1) \/ value s = OInt 0 \/ value s = OInt 1).
Proof.
  unfold value. destruct s as [p d t]; cbn.
  destruct t; cbn;
    destruct (Z.ltb_spec p 1), (Z.gtb_spec p 21), (Z.ltb_spec d 1),
      (Z.gtb_spec d 21), (Z.gtb_spec p d), (Z.eqb_spec p d), (Z.ltb_spec p d);
    cbn; repeat split; intros; try congruence; try lia; auto.
Qed.

Lemma value_cases_witness :
  value (mkState 18 23 true) = OInt 1 /\ value (mkState 25 15 true) = OInt (-1).
Proof.
  split.
  - destruct (value_cases (mkState 18 23 true)) as (_ & _ & H & _).
    apply H; cbn; [reflexivity | lia | lia].
  - destruct (value_cases (mkState 25 15 true)) as (_ & H & _).
    apply H; cbn; [reflexivity | lia].
Defined.

(** C10, as stated, fails: an unknown action name ends in the
    [AttributeError] of [getattr], not in an [InvalidAction], and the action
    "__class__", which is neither "hit" nor "stick", makes [step] return a
    pair without any error (the class and its function [value]). *)
Lemma step_unknown_name_is_AttributeError :
  step s_10_7 (OStr "double") = Raise AttributeError /\
  step s_10_7 (OStr "double") <> Raise InvalidAction /\
  step s_10_7 (OStr "__class__") = Ok (OClass, OFunc m_value).
Proof. split; [reflexivity | split; [discriminate | reflexivity]]. Qed.

Lemma not_attribute (n : string) :
  n ∉ attributes ->
  forall state, getattr state (OStr n) = Raise AttributeError.
Proof.
  intros Hn state. unfold getattr.
  assert (forall m, m ∈ attributes -> String.eqb n m = false) as Hne.
  { intros m Hm. apply String.eqb_neq. by intros ->. }
  rewrite !Hne by (unfold attributes; set_solver).
  assert (existsb (String.eqb n) inherited = false) as ->; [| done].
  apply not_true_is_false. intros (m & Hm & E)%existsb_exists.
  apply String.eqb_eq in E as <-. apply Hn. unfold attributes.
  apply elem_of_app. right. by apply list_elem_of_In.
Qed.

(** C10 (amended): on a live state an action that is not the name of an
    attribute of the state makes [step] fail in [getattr]: with an
    [AttributeError] when it is a string and a [TypeError] when it is not. *)
Theorem step_illegal_action (s : State) (a : obj) :
  terminated s = false ->
  (forall n, a = OStr n -> n ∉ attributes) ->
  getattr s a = Raise (match a with OStr _ => AttributeError | _ => TypeError end) /\
  step s a = Raise (match a with OStr _ => AttributeError | _ => TypeError end).
Proof.
  intros Hlive Hname. unfold step. rewrite Hlive.
  destruct a as [z | b | n | | s' | m s' | m | o1 o2 | | n']; try done.
  by rewrite (not_attribute n (Hname n eq_refl)).
Qed.

Lemma step_illegal_action_witness :
  step s_10_7 (OStr "double") = Raise AttributeError /\
  step s_10_7 (OInt 2) = Raise TypeError.
Proof.
  split.
  - apply (step_illegal_action s_10_7 (OStr "double")); [reflexivity |].
    intros n [= <-]. apply (bool_decide_unpack _). vm_compute. exact I.
  - apply (step_illegal_action s_10_7 (OInt 2)); [reflexivity | discriminate].
Defined.

(** ** The dealer's loop *)

Lemma dealer_guard (d : Z) : (d >=? 1) && (d <? 17) = true <-> 1 <= d < 17.
Proof.
  rewrite andb_true_iff, Z.geb_le, Z.ltb_lt. lia.
Qed.

Lemma dealer_guard_false (d : Z) :
  (d >=? 1) && (d <? 17) = false <-> ~ 1 <= d < 17.
Proof.
  rewrite <- dealer_guard. destruct ((d >=? 1) && (d <? 17)); split; congruence.
Qed.

Lemma dealer_after_S (n : nat) (d : Z) (g : rng) :
  dealer_after (S n) d g = dealer_after n (d + (draw g).1) (draw g).2.
Proof. cbn [dealer_after]. by destruct (draw g). Qed.

Lemma dealer_loop_S (fuel : nat) (d : Z) (g : rng) :
  1 <= d < 17 ->
  dealer_loop (S fuel) d g = dealer_loop fuel (d + (draw g).1) (draw g).2.
Proof.
  intros Hd. apply dealer_guard in Hd. cbn [dealer_loop]. rewrite Hd.
  by destruct (draw g).
Qed.

Lemma dealer_loop_stop (fuel : nat) (d : Z) (g : rng) :
  ~ 1 <= d < 17 -> dealer_loop fuel d g = Some (d, g).
Proof.
  intros Hd. apply dealer_guard_false in Hd.
  destruct fuel; cbn [dealer_loop]; by rewrite Hd.
Qed.

Lemma dealer_after_pos (n : nat) (d : Z) (g : rng) :
  pos (dealer_after n d g).2 = (pos g + 2 * n)%nat
  /\ tape (dealer_after n d g).2 = tape g.
Proof.
  revert d g. induction n as [| n IH]; intros d g.
  - cbn. split; [lia | done].
  - rewrite dealer_after_S. destruct (IH (d + (draw g).1) (draw g).2) as [-> ->].
    rewrite draw_rng. cbn. split; [lia | done].
Qed.

(** Whatever the loop returns is the total after some number of draws, the
    first total outside 1..16. *)
Lemma dealer_loop_sound (fuel : nat) (d : Z) (g : rng) (r : Z * rng) :
  dealer_loop fuel d g = Some r ->
  ~ 1 <= r.1 < 17 /\
  exists n, (n <= fuel)%nat /\ dealer_after n d g = r /\
    forall i, (i < n)%nat -> 1 <= (dealer_after i d g).1 < 17.
Proof.
  revert d g. induction fuel as [| fuel IH]; intros d g H.
  - cbn in H. destruct ((d >=? 1) && (d <? 17)) eqn:Hd; [done |].
    injection H as <-. apply dealer_guard_false in Hd. split; [done |].
    exists 0%nat. split; [lia |]. split; [done |]. intros i Hi. lia.
  - destruct (decide (1 <= d < 17)) as [Hd | Hd].
    + rewrite dealer_loop_S in H by done.
      destruct (IH _ _ H) as (Hr & n & Hn & Hafter & Hbefore).
      split; [done |]. exists (S n). split; [lia |].
      split; [by rewrite dealer_after_S |].
      intros [| i] Hi; [done |]. rewrite dealer_after_S. apply Hbefore. lia.
    + rewrite dealer_loop_stop in H by done. injection H as <-.
      split; [done |]. exists 0%nat. split; [lia |]. split; [done |].
      intros i Hi. lia.
Qed.

(** If the total is outside 1..16 after [n] draws, the loop returns after at
    most [n] draws, for every bound on the draws from that number on. *)
Lemma dealer_loop_complete (n : nat) (d : Z) (g : rng) :
  ~ 1 <= (dealer_after n d g).1 < 17 ->
  exists m, (m <= n)%nat /\
    forall fuel, (m <= fuel)%nat ->
      dealer_loop fuel d g = Some (dealer_after m d g).
Proof.
  revert d g. induction n as [| n IH]; intros d g H.
  - exists 0%nat. split; [lia |]. intros fuel _. by apply dealer_loop_stop.
  - destruct (decide (1 <= d < 17)) as [Hd | Hd].
    + rewrite dealer_after_S in H. destruct (IH _ _ H) as (m & Hm & Hloop).
      exists (S m). split; [lia |]. intros [| fuel] Hfuel; [lia |].
      rewrite dealer_loop_S, dealer_after_S by done. apply Hloop. lia.
    + exists 0%nat. split; [lia |]. intros fuel _. by apply dealer_loop_stop.
Qed.

(** C4: on a live state, whatever [stick] returns is terminal, keeps the
    player's sum, and carries the first dealer total outside 1..16 (so at
    least 17 or below 1), every total before it lying in 1..16; and [stick]
    does return it as soon as the dealer's total leaves 1..16. *)
Theorem stick_plays_the_dealer (s : State) (g : rng) :
  terminated s = false ->
  (forall fuel r, stick fuel s g = Some r ->
     terminated r.1 = true /\ player r.1 = player s /\
     (dealer r.1 >= 17 \/ dealer r.1 < 1) /\
     exists n, (n <= fuel)%nat /\
       dealer_after n (dealer s) g = (dealer r.1, r.2) /\
       forall i, (i < n)%nat -> 1 <= (dealer_after i (dealer s) g).1 < 17) /\
  (forall n, ~ 1 <= (dealer_after n (dealer s) g).1 < 17 ->
     exists r, stick n s g = Some r).
Proof.
  intros Hlive. unfold stick. rewrite Hlive. split.
  - intros fuel r H.
    destruct (dealer_loop fuel (dealer s) g) as [[d' g1] |] eqn:Hloop; [| done].
    injection H as <-. cbn.
    destruct (dealer_loop_sound _ _ _ _ Hloop) as (Hout & n & Hn & Hafter & Hin).
    cbn in Hout. repeat split; [lia |]. by exists n.
  - intros n Hn. destruct (dealer_loop_complete _ _ _ Hn) as (m & Hm & Hloop).
    rewrite (Hloop n Hm). destruct (dealer_after m (dealer s) g). eauto.
Qed.

Lemma stick_plays_the_dealer_witness :
  exists r, stick 2 (mkState 20 10 false) (mkRng (cards [6; 5]) 0) = Some r
            /\ r.1 = mkState 20 21 true.
Proof.
  destruct (stick_plays_the_dealer (mkState 20 10 false)
              (mkRng (cards [6; 5]) 0) eq_refl) as [_ H].
  destruct (H 2%nat) as [r Hr]; [vm_compute; intros [_ Hlt]; discriminate Hlt |].
  exists r. split; [exact Hr |].
  vm_compute in Hr. by injection Hr as <-.
Defined.

(** The see-saw tape deals black 1 and red 1 in turn. *)
Lemma draw_at (t : nat -> Z) (p : nat) :
  draw (mkRng t p)
  = ((1 + t p mod 10) * (if 1 + t (S p) mod 3 =? 1 then -1 else 1),
     mkRng t (S (S p))).
Proof. reflexivity. Qed.





(** With black cards only the dealer stops within sixteen draws. *)
Lemma dealer_after_black (n : nat) (d : Z) (g : rng) :
  (forall p, 1 <= (draw (mkRng (tape g) p)).1) ->
  d + Z.of_nat n <= (dealer_after n d g).1.
Proof.
  intros Hblack. revert d g Hblack.
  induction n as [| n IH]; intros d g Hblack; [cbn; lia |].
  rewrite dealer_after_S.
  pose proof (IH (d + (draw g).1) (draw g).2 Hblack) as Hrest.
  pose proof (Hblack (pos g)) as Hfirst.
  destruct g as [t p]; cbn [tape pos] in Hfirst. lia.
Qed.

Lemma stick_black_cards (s : State) (g : rng) :
  (forall p, 1 <= (draw (mkRng (tape g) p)).1) ->
  exists r, stick 16 s g = Some r.
Proof.
  intros Hblack. unfold stick. destruct (terminated s); [eauto |].
  assert (~ 1 <= (dealer_after 16 (dealer s) g).1 < 17
          \/ ~ 1 <= dealer s < 17) as Hout.
  { pose proof (dealer_after_black 16 (dealer s) g Hblack). lia. }
  destruct Hout as [Hout | Hout].
  - destruct (dealer_loop_complete _ _ _ Hout) as (m & Hm & Hloop).
    rewrite (Hloop _ Hm). destruct (dealer_after m (dealer s) g). eauto.
  - rewrite dealer_loop_stop by done. eauto.
Qed.

(** ** Reachable states *)

Lemma new_state (g : rng) :
  terminated (new g).1 = false /\
  1 <= player (new g).1 <= 10 /\ 1 <= dealer (new g).1 <= 10.
Proof.
  unfold new. pose proof (draw_range g) as H1.
  destruct (draw g) as [c1 g1]. pose proof (draw_range g1) as H2.
  destruct (draw g1) as [c2 g2]. cbn in *. lia.
Qed.

(** A hit on a live state moves the player's sum by the card drawn, leaves
    the dealer's sum alone, and is terminal exactly when the new sum is
    outside 1..21. *)
Lemma hit_live (s : State) (g : rng) :
  terminated s = false ->
  player (hit s g).1 = player s + (draw g).1 /\
  dealer (hit s g).1 = dealer s /\
  (terminated (hit s g).1 = false <-> 1 <= player (hit s g).1 <= 21).
Proof.
  intros Hlive. unfold hit. rewrite Hlive. destruct (draw g) as [c g1]. cbn.
  repeat split; rewrite ?orb_false_iff, ?Z.ltb_ge, ?Z.gtb_ltb, ?Z.ltb_ge; lia.
Qed.

Lemma hit_terminal (s : State) (g : rng) :
  terminated s = true -> hit s g = (s, g).
Proof. intros H. unfold hit. by rewrite H. Qed.

Lemma stick_terminates (fuel : nat) (s : State) (g : rng) (r : State * rng) :
  stick fuel s g = Some r -> terminated r.1 = true.
Proof.
  unfold stick. destruct (terminated s) eqn:Ht.
  - by intros [= <-].
  - destruct (dealer_loop fuel (dealer s) g) as [[d' g1] |]; [| done].
    by intros [= <-].
Qed.

(** [step] hands back a state only when it was given a terminal one. *)
Lemma step_state (s : State) (a : obj) (s' : State) (r : obj) :
  step s a = Ok (OState s', r) -> s' = s /\ terminated s = true.
Proof.
  unfold step. destruct (terminated s); [by intros [= <-] |].
  destruct (getattr s a) as [o | e] eqn:Hget; [| done].
  destruct (attr_value o) as [v | e] eqn:Hv; [| done].
  intros [= -> <-]. destruct a; try done. cbn in Hget.
  repeat case_match; congruence.
Qed.

(** C6: a reachable live state has both sums in 1..21; a reachable state
    with a sum outside that range is terminal. *)
Theorem live_states_in_range (s : State) :
  reachable s ->
  (terminated s = false -> 1 <= player s <= 21 /\ 1 <= dealer s <= 21) /\
  (~ (1 <= player s <= 21 /\ 1 <= dealer s <= 21) -> terminated s = true).
Proof.
  intros Hreach.
  assert (terminated s = false -> 1 <= player s <= 21 /\ 1 <= dealer s <= 21)
    as Hinv.
  { induction Hreach as [g | s g _ IH | fuel s g s' g' _ _ Hstick
                         | s a s' r _ IH Hstep].
    - pose proof (new_state g). lia.
    - destruct (terminated s) eqn:Ht.
      + rewrite hit_terminal by done. cbn. by rewrite Ht.
      + destruct (hit_live s g Ht) as (_ & Hd & Hp). intros Hlive.
        rewrite Hd. split; [by apply Hp | by apply IH].
    - apply stick_terminates in Hstick. cbn in Hstick. congruence.
    - by destruct (step_state _ _ _ _ Hstep) as [-> _]. }
  split; [done |]. destruct (terminated s); [done |]. intros H. by destruct H; apply Hinv.
Qed.

Lemma live_states_in_range_witness :
  1 <= player (hit (new (mkRng (cards [10; 7; 3]) 0)).1
                 (new (mkRng (cards [10; 7; 3]) 0)).2).1 <= 21.
Proof.
  apply (live_states_in_range
           (hit (new (mkRng (cards [10; 7; 3]) 0)).1
                (new (mkRng (cards [10; 7; 3]) 0)).2).1).
  - apply reach_hit, reach_new.
  - reflexivity.
Defined.

(** ** Episodes *)

(** C8, as stated, fails: dealt 10 and 7, a player who hits three times and
    draws +3, then -3, is back in the state (10, 7) for the third hit. *)
Lemma episode_revisits_a_pair :
  episode 0 [Hit; Hit; Hit] (new (mkRng (cards [10; 7; 3; -3]) 0)).1
    (new (mkRng (cards [10; 7; 3; -3]) 0)).2
  = Some [(s_10_7, Hit); (mkState 13 7 false, Hit); (s_10_7, Hit)] /\
  ~ NoDup [(s_10_7, Hit); (mkState 13 7 false, Hit); (s_10_7, Hit)].
Proof.
  split; [reflexivity |].
  intros H. apply NoDup_cons_1_1 in H. apply H. set_solver.
Qed.

Lemma episode_head (fuel : nat) (moves : list move) (s : State) (g : rng)
    (p : State * move) (visited : list (State * move)) :
  episode fuel moves s g = Some (p :: visited) ->
  p.1 = s /\ terminated s = false.
Proof.
  destruct moves as [| m moves']; cbn; [done |].
  destruct (terminated s); [done |].
  destruct (play fuel m s g) as [[s' g'] |]; [| done].
  destruct (episode fuel moves' s' g'); [| done].
  by intros [= <- _].
Qed.

(** C8 (amended): two pairs that follow each other in an episode are
    distinct: the first is a hit from a live state, the second state is live
    too, has the same dealer's sum, and a player's sum that differs by the
    card drawn, between 1 and 10 either way.  (A stick is therefore the last
    pair only; pairs further apart can coincide.) *)
Theorem episode_consecutive_pairs (fuel : nat) (moves : list move) (s : State)
    (g : rng) (visited : list (State * move)) (i : nat) (p1 p2 : State * move) :
  episode fuel moves s g = Some visited ->
  visited !! i = Some p1 -> visited !! S i = Some p2 ->
  p1.2 = Hit /\ terminated p1.1 = false /\ terminated p2.1 = false /\
  dealer p2.1 = dealer p1.1 /\
  1 <= Z.abs (player p2.1 - player p1.1) <= 10 /\ p1 <> p2.
Proof.
  revert s g visited i.
  induction moves as [| m moves' IH]; intros s g visited i; cbn [episode].
  { by intros [= <-]. }
  destruct (terminated s) eqn:Hlive; [by intros [= <-] |].
  destruct (play fuel m s g) as [[s' g'] |] eqn:Hplay; [| done].
  destruct (episode fuel moves' s' g') as [visited' |] eqn:Hrest; [| done].
  intros [= <-]. destruct i as [| i]; cbn; [| by apply (IH s' g')].
  intros [= <-] H2. destruct visited' as [| p visited']; [done |].
  injection H2 as ->. destruct (episode_head _ _ _ _ _ _ Hrest) as [Hp2 Hlive'].
  destruct p2 as [s2 m2]. cbn in Hp2. subst s2. cbn. destruct m; cbn in Hplay.
  - injection Hplay as Hplay.
    assert ((hit s g).1 = s') as Hs' by (by rewrite Hplay).
    destruct (hit_live s g Hlive) as (Hp & Hd & _).
    rewrite Hs' in Hp, Hd. pose proof (draw_range g).
    assert (1 <= Z.abs (player s' - player s) <= 10) by lia.
    repeat split; try done; try lia.
    intros [= E _]. rewrite E in *. lia.
  - apply stick_terminates in Hplay. cbn in Hplay. congruence.
Qed.

Lemma episode_consecutive_pairs_witness :
  (s_10_7, Hit) <> (mkState 13 7 false, Hit).
Proof.
  apply (episode_consecutive_pairs 0 [Hit; Hit; Hit]
           (new (mkRng (cards [10; 7; 3; -3]) 0)).1
           (new (mkRng (cards [10; 7; 3; -3]) 0)).2
           [(s_10_7, Hit); (mkState 13 7 false, Hit); (s_10_7, Hit)] 0%nat);
    reflexivity.
Defined.

End Easy21Facts.

(** * Properties of the control script *)

Module MonteCarloFacts.
Import Easy21 Easy21Facts MonteCarlo.

(** ** The dictionaries *)

Lemma dd_get_fst {A : Type} (d : A) (k : key) (m : gmap key A) :
  (dd_get d k m).1 = default d (m !! k).
Proof. unfold dd_get. by destruct (m !! k). Qed.

Lemma dd_get_snd {A : Type} (d : A) (k k' : key) (m : gmap key A) :
  default d ((dd_get d k m).2 !! k') = default d (m !! k').
Proof.
  unfold dd_get. destruct (m !! k) eqn:Hk; [done |]. cbn.
  destruct (decide (k = k')) as [<- | Hne].
  - by rewrite lookup_insert_eq, Hk.
  - by rewrite lookup_insert_ne.
Qed.

(** Reading [d[k]] stores the value read under [k] and touches no other
    key. *)
Lemma dd_get_lookup {A : Type} (d : A) (k k' : key) (m : gmap key A) :
  (dd_get d k m).2 !! k'
  = if decide (k = k') then Some (default d (m !! k)) else m !! k'.
Proof.
  unfold dd_get. destruct (m !! k) eqn:Hk; cbn.
  - case_decide; [by subst | done].
  - case_decide; [subst; by rewrite lookup_insert_eq |].
    by rewrite lookup_insert_ne.
Qed.

Lemma dd_get_present {A : Type} (d : A) (k : key) (m : gmap key A) (v : A) :
  m !! k = Some v -> dd_get d k m = (v, m).
Proof. intros H. unfold dd_get. by rewrite H. Qed.

Lemma dd_incr_lookup (k k' : key) (m : gmap key Z) :
  dd_incr k m !! k'
  = if decide (k = k') then Some (default 0 (m !! k) + 1)
    else (dd_get 0 k m).2 !! k'.
Proof.
  unfold dd_incr. pose proof (dd_get_fst 0 k m) as Hv.
  destruct (dd_get 0 k m) as [v m1]. cbn in *. subst v.
  destruct (decide (k = k')) as [<- | Hne].
  - by rewrite lookup_insert_eq.
  - by rewrite lookup_insert_ne.
Qed.

Lemma dd_incr_default (k k' : key) (m : gmap key Z) :
  default 0 (dd_incr k m !! k')
  = default 0 (m !! k') + (if decide (k = k') then 1 else 0).
Proof.
  rewrite dd_incr_lookup. destruct (decide (k = k')) as [<- | Hne]; [done |].
  rewrite dd_get_snd. lia.
Qed.

Section Floats.

Context {float : Type}.
Variable float0 : float.
Variable truediv : Z -> Z -> float.
Variable flt : float -> float -> bool.
Variable unit_float : Z -> float.

Local Abbreviation store := (@store float).
Local Abbreviation next_action := (next_action float0 truediv flt unit_float).
Local Abbreviation trial_loop := (trial_loop float0 truediv flt unit_float).
Local Abbreviation trial := (trial float0 truediv flt unit_float).
Local Abbreviation trained := (trained float0 truediv flt unit_float).

(** The loop body adds one to the counter of the state and one to the
    counter of the pair, and to no other. *)
Lemma count_count_visit (s : State) (a : string) (st : store) (k : key) :
  count (count_visit s a st) k
  = count st k + (if decide (KState s = k) then 1 else 0)
    + (if decide (KPair s a = k) then 1 else 0).
Proof. unfold count, count_visit. cbn. by rewrite !dd_incr_default. Qed.

Lemma count_epsilon (st : store) (s : State) (k : key) :
  count (epsilon truediv st s).1 k = count st k.
Proof.
  unfold epsilon, count. pose proof (dd_get_snd 0 (KState s) k (N st)) as H.
  destruct (dd_get 0 (KState s) (N st)) as [n N1]. by case_match.
Qed.

Lemma epsilon_defined (st : store) (s : State) :
  0 <= count st (KState s) ->
  exists e, (epsilon truediv st s).2 = Ok e.
Proof.
  intros Hn. unfold epsilon, count in *.
  pose proof (dd_get_fst 0 (KState s) (N st)) as H.
  destruct (dd_get 0 (KState s) (N st)) as [n N1]. cbn in H. subst n.
  unfold N0. destruct (Z.eqb_spec (100 + default 0 (N st !! KState s)) 0);
    [lia | eauto].
Qed.

(** [next_action] writes no counter, and once the counter of the state is
    not negative it returns one of the two actions. *)
Lemma next_action_spec (st : store) (g : rng) (s : State) :
  (forall k, count (next_action st g s).1.1 k = count st k) /\
  (0 <= count st (KState s) ->
   exists a, (next_action st g s).2 = Ok a /\ a ∈ actions).
Proof.
  unfold next_action.
  pose proof (count_epsilon st s) as Hcount.
  pose proof (epsilon_defined st s) as Hdef.
  destruct (epsilon truediv st s) as [st1 re]. cbn [fst snd] in *.
  destruct re as [e | x]; cbn [fst snd].
  - destruct (random unit_float g) as [u g1].
    destruct (flt u e); cbn.
    + split; [done |]. intros _. eexists. split; [done |].
      unfold actions. rewrite !elem_of_cons.
      repeat case_match; auto.
    + destruct (dd_get float0 (KPair s "hit") (V st1)) as [k V1]. cbn.
      destruct (dd_get float0 (KPair s "stick") V1) as [k1 V0].
      unfold actions. destruct (flt k k1); cbn.
      * split; [exact Hcount |]. intros _. eexists. split; [done |].
        rewrite !elem_of_cons. auto.
      * split; [exact Hcount |]. intros _. eexists. split; [done |].
        rewrite !elem_of_cons. auto.
  - split; [done |]. intros H. destruct (Hdef H) as [e He]. done.
Qed.

(** ** The episode loop *)

(** The loop never touches [states]. *)
Lemma trial_loop_states (fuel : nat) (st : store) (g : rng) (state : obj)
    (states : list obj) (reward : option obj) (st' : store) (g' : rng)
    (states' : list obj) (reward' : option obj) :
  trial_loop fuel st g state states reward = Some (st', g', Ok (states', reward')) ->
  states' = states.
Proof.
  revert st g state reward.
  induction fuel as [| fuel IH]; intros st g state reward;
    destruct state as [| | | | s | | | | |]; cbn [MonteCarlo.trial_loop];
    try done;
    (destruct (terminated s); [by intros [= _ _ <- _] |]); [done |].
  destruct (next_action st g s) as [[st1 g1] [a | x]]; [| done].
  destruct (step s (OStr a)) as [[state' r'] | x]; [| done].
  apply IH.
Qed.

(** No counter goes down in the loop. *)
Lemma trial_loop_mono (fuel : nat) (st : store) (g : rng) (state : obj)
    (states : list obj) (reward : option obj) (st' : store) (g' : rng)
    (x : res (list obj * option obj)) (k : key) :
  trial_loop fuel st g state states reward = Some (st', g', x) ->
  count st k <= count st' k.
Proof.
  revert st g state reward.
  induction fuel as [| fuel IH]; intros st g state reward;
    destruct state as [| | | | s | | | | |]; cbn [MonteCarlo.trial_loop];
    try done; try (intros [= <- _ _]; lia);
    (destruct (terminated s); [intros [= <- _ _]; lia |]); [done |].
  pose proof (proj1 (next_action_spec st g s) k) as Hsame.
  destruct (next_action st g s) as [[st1 g1] [a | e]]; cbn [fst] in Hsame;
    [| intros [= <- _ _]; lia].
  pose proof (count_count_visit s a st1 k) as Hvisit.
  assert (count st k <= count (count_visit s a st1) k) as Hle
    by (repeat case_decide; lia).
  destruct (step s (OStr a)) as [[state' r'] | e];
    [| intros [= <- _ _]; lia].
  intros H. apply IH in H. lia.
Qed.

Lemma trial_mono (fuel : nat) (st : store) (g : rng) (st' : store) (g' : rng)
    (r : res obj) (k : key) :
  trial fuel st g = Some (st', g', r) -> count st k <= count st' k.
Proof.
  unfold trial. destruct (new g) as [s g0].
  destruct (trial_loop fuel st g0 (OState s) [OState s] None)
    as [[[st1 g1] x] |] eqn:Hloop; [| done].
  apply (trial_loop_mono _ _ _ _ _ _ _ _ _ k) in Hloop.
  destruct x as [[states [reward |]] | e]; cbn; by intros [= <- _ _].
Qed.

Lemma trained_counts (st : store) (k : key) : trained st -> 0 <= count st k.
Proof.
  induction 1 as [| fuel st g st' g' r _ IH Htrial]; [done |].
  apply (trial_mono _ _ _ _ _ _ k) in Htrial. lia.
Qed.

(** Every run of [trial] from a trained store stops in its first iteration,
    with the two counters written and the [AttributeError] of [step]. *)
Lemma trial_raises (fuel : nat) (st : store) (g : rng) :
  trained st ->
  exists a, a ∈ actions /\
    (next_action st (new g).2 (new g).1).2 = Ok a /\
    trial (S fuel) st g
    = Some (count_visit (new g).1 a (next_action st (new g).2 (new g).1).1.1,
            (next_action st (new g).2 (new g).1).1.2, Raise AttributeError).
Proof.
  intros Htrained. unfold trial.
  destruct (new_state g) as (Hlive & _). destruct (new g) as [s g0].
  cbn [fst snd] in *. cbn [MonteCarlo.trial_loop]. rewrite Hlive.
  destruct (next_action_spec st g0 s) as [_ Hact].
  destruct (Hact (trained_counts _ _ Htrained)) as (a & Ha & Hin).
  exists a. split; [done |]. split; [done |].
  destruct (next_action st g0 s) as [[st1 g1] ra]. cbn [fst snd] in *. subst ra.
  by rewrite (step_live s a Hlive Hin).
Qed.

(** What a run of [trial] leaves behind. *)
Lemma trial_result (fuel : nat) (st : store) (g : rng) (st' : store)
    (g' : rng) (r : res obj) :
  trained st -> trial fuel st g = Some (st', g', r) ->
  r = Raise AttributeError /\
  exists a, a ∈ actions /\
    st' = count_visit (new g).1 a (next_action st (new g).2 (new g).1).1.1 /\
    (next_action st (new g).2 (new g).1).2 = Ok a.
Proof.
  intros Htrained Htrial. destruct fuel as [| fuel].
  - unfold MonteCarlo.trial in Htrial. destruct (new_state g) as (Hlive & _).
    destruct (new g) as [s g0]. cbn in Hlive, Htrial.
    by rewrite Hlive in Htrial.
  - destruct (trial_raises fuel st g Htrained) as (a & Ha & Hnext & E).
    rewrite E in Htrial. injection Htrial as <- _ <-. eauto.
Qed.

(** [next_action] reads [N] under the state only: the entries of the pairs
    are as they were. *)
Lemma next_action_pairs (st : store) (g : rng) (s s' : State) (a : string) :
  N (next_action st g s).1.1 !! KPair s' a = N st !! KPair s' a.
Proof.
  unfold MonteCarlo.next_action, epsilon.
  pose proof (dd_get_lookup 0 (KState s) (KPair s' a) (N st)) as Hk.
  rewrite decide_False in Hk by done.
  destruct (dd_get 0 (KState s) (N st)) as [n N1]. cbn [snd] in Hk.
  destruct (N0 + n =? 0); [done |].
  destruct (random unit_float g) as [u g1].
  destruct (flt u (truediv N0 (N0 + n))); [done |].
  unfold actions. cbn [max_scan V N].
  destruct (dd_get float0 (KPair s "hit") (V st)) as [kh V1]. cbn [V N].
  destruct (dd_get float0 (KPair s "stick") V1) as [ks V2].
  by destruct (flt kh ks).
Qed.

(** A pair that has an entry in [N] has been counted at least once. *)
Lemma trained_pairs (st : store) (s : State) (a : string) (n : Z) :
  trained st -> N st !! KPair s a = Some n -> 1 <= n.
Proof.
  intros Htrained. revert n.
  induction Htrained as [| fuel st g st' g' r Htrained IH Htrial]; [done |].
  destruct (trial_result _ _ _ _ _ _ Htrained Htrial)
    as (_ & a0 & _ & -> & _).
  intros n. unfold count_visit. cbn [N].
  set (s0 := (new g).1). set (st1 := (next_action st (new g).2 s0).1.1).
  rewrite dd_incr_lookup. case_decide as Hk.
  - intros [= <-]. rewrite dd_incr_default, decide_False by done.
    pose proof (proj1 (next_action_spec st (new g).2 s0) (KPair s0 a0)) as E.
    pose proof (trained_counts st (KPair s0 a0) Htrained) as Hpos.
    unfold count in *. fold st1 in E. lia.
  - rewrite dd_get_lookup, decide_False, dd_incr_lookup, decide_False by done.
    rewrite dd_get_lookup, decide_False by done.
    unfold st1. rewrite next_action_pairs. apply IH.
Qed.

(** C7: a run of [trial] goes through the two counter statements before it
    calls [step], where it ends: in the store it leaves, the counter of the
    pair chosen in the run is one higher than before, so at least 1, and
    [alpha] of that pair is 1 divided by it.  On that store [alpha] can only
    divide by zero for a pair that has no entry in [N] (never counted), no
    later run lowers a counter, and the run itself does not end in a
    [ZeroDivisionError] (it never calls [alpha]). *)
Theorem alpha_after_trial (fuel : nat) (st : store) (g : rng) (st' : store)
    (g' : rng) (r : res obj) :
  trained st -> trial fuel st g = Some (st', g', r) ->
  r <> Raise ZeroDivisionError /\
  (exists a,
     (next_action st (new g).2 (new g).1).2 = Ok a /\
     count st' (KPair (new g).1 a) = count st (KPair (new g).1 a) + 1 /\
     1 <= count st' (KPair (new g).1 a) /\
     alpha truediv st' (new g).1 a
     = (st', Ok (truediv 1 (count st' (KPair (new g).1 a))))) /\
  (forall s a, (alpha truediv st' s a).2 = Raise ZeroDivisionError ->
               N st' !! KPair s a = None) /\
  (forall s a fuel2 g2 st2 g3 r2,
     trial fuel2 st' g2 = Some (st2, g3, r2) ->
     count st' (KPair s a) <= count st2 (KPair s a)).
Proof.
  intros Htrained Htrial.
  pose proof (trained_trial _ _ _ _ _ _ _ _ _ _ Htrained Htrial) as Htrained'.
  destruct (trial_result _ _ _ _ _ _ Htrained Htrial)
    as (-> & a & _ & Hst' & Hnext).
  split; [done |]. split; [| split].
  - exists a. split; [done |].
    pose proof (proj1 (next_action_spec st (new g).2 (new g).1)
                  (KPair (new g).1 a)) as Hsame.
    pose proof (trained_counts st (KPair (new g).1 a) Htrained) as Hpos.
    pose proof (count_count_visit (new g).1 a
                  (next_action st (new g).2 (new g).1).1.1
                  (KPair (new g).1 a)) as Hvisit.
    rewrite decide_False, decide_True in Hvisit by done.
    rewrite <- Hst' in Hvisit.
    assert (count st' (KPair (new g).1 a)
            = count st (KPair (new g).1 a) + 1) as Hcount by lia.
    split; [done |]. split; [lia |].
    unfold alpha, count in *.
    destruct (N st' !! KPair (new g).1 a) as [n |] eqn:Hn;
      change (default 0 (Some n)) with n in Hcount ||
      change (default 0 (@None Z)) with 0 in Hcount; [| lia].
    rewrite (dd_get_present _ _ _ _ Hn).
    destruct (Z.eqb_spec n 0); [lia |]. cbn. by destruct st'.
  - intros s a0. unfold alpha.
    destruct (N st' !! KPair s a0) as [n |] eqn:Hn; [| done].
    pose proof (trained_pairs _ _ _ _ Htrained' Hn).
    rewrite (dd_get_present _ _ _ _ Hn).
    by destruct (Z.eqb_spec n 0); [lia |].
  - intros s a0 fuel2 g2 st2 g3 r2. apply trial_mono.
Qed.

End Floats.

(** ** Sample runs *)

Lemma q_trial_run :
  q_trial 1 store0 g_10_7
  = Some (q_store1, mkRng (cards [10; 7]) 6, Raise AttributeError).
Proof. vm_compute. reflexivity. Qed.

Lemma q_trained_once : trained 0%Q q_truediv q_lt q_unit q_store1.
Proof.
  eapply trained_trial; [apply trained_start | exact q_trial_run].
Qed.

Lemma alpha_after_trial_witness :
  exists a,
    (q_next_action store0 (new g_10_7).2 (new g_10_7).1).2 = Ok a /\
    1 <= count q_store1 (KPair (new g_10_7).1 a) /\
    alpha q_truediv q_store1 (new g_10_7).1 a
    = (q_store1, Ok (q_truediv 1 (count q_store1 (KPair (new g_10_7).1 a)))).
Proof.
  destruct (alpha_after_trial 0%Q q_truediv q_lt q_unit 1 store0 g_10_7
              q_store1 (mkRng (cards [10; 7]) 6) (Raise AttributeError))
    as (_ & (a & Hnext & _ & Hone & Halpha) & _).
  - apply trained_start.
  - exact q_trial_run.
  - exists a. split; [exact Hnext |]. split; [exact Hone | exact Halpha].
Defined.

Lemma q_trial_sample :
  option_map (fun '(st, g, r) =>
                (count st (KState s_10_7), count st (KPair s_10_7 "hit"), r))
    (q_trial 1 store0 g_10_7)
  = Some (1, 1, Raise AttributeError).
Proof. vm_compute. reflexivity. Qed.

(** C3 (the defect): dealt 10 and 7 on empty dictionaries, [trial] picks
    "hit", counts the state and the pair once each, and ends in the
    [AttributeError] of [step]: nothing was appended to [states], no next
    state was reached and [update] was not called. *)
Theorem trial_stops_at_the_first_step :
  exists st' g',
    q_trial 1 store0 g_10_7 = Some (st', g', Raise AttributeError) /\
    count st' (KState s_10_7) = 1 /\ count st' (KPair s_10_7 "hit") = 1 /\
    (new g_10_7).1 = s_10_7.
Proof.
  pose proof q_trial_sample as H.
  destruct (q_trial 1 store0 g_10_7) as [[[st' g'] r] |]; [| done].
  cbn in H. injection H as H1 H2 ->. by exists st', g'.
Qed.

(** C2 (the defect): [update] leaves the store as it is.  With the pair
    ((10, 7), "stick") counted once, an estimate of 0 and a final reward of
    1, the estimate is still 0 after the call, where the incremental mean
    gives (1-1)/1 * 0 + 1/1 = 1. *)
Theorem update_changes_nothing :
  let st := mkStore (∅ : gmap key Q) {[ KPair s_10_7 "stick" := 1 ]} in
  let st' := (update st [OPair (OState s_10_7) (OStr "stick")] (OInt 1)).1 in
  st' = st /\
  default 0%Q (V st' !! KPair s_10_7 "stick") = 0%Q /\
  ~ (0 == (1 - 1) / 1 * 0 + 1 / 1)%Q.
Proof.
  cbn. split; [done |]. split; [done |]. intros H. vm_compute in H. done.
Qed.

End MonteCarloFacts.

(** * Further properties of the environment *)

Module Easy21More.
Import Easy21 Easy21Facts.

(** X1: a card is never 0 and has a value of 1 to 10 either way; drawing it
    takes exactly two pieces of the tape, and it is red (negative) exactly
    when the colour roll, the second of the two [randint] calls, is 1. *)
Theorem draw_card (g : rng) :
  1 <= Z.abs (draw g).1 <= 10 /\
  (draw g).1 = (randint 1 10 g).1
               * (if (randint 1 3 (advance g)).1 =? 1 then -1 else 1) /\
  ((draw g).1 < 0 <-> (randint 1 3 (advance g)).1 = 1) /\
  pos (draw g).2 = (pos g + 2)%nat /\ tape (draw g).2 = tape g.
Proof.
  pose proof (draw_range g) as Hrange.
  split; [lia |]. split; [reflexivity |]. split.
  - unfold draw, randint in *. cbn [fst snd] in *.
    change (10 - 1 + 1) with 10 in *.
    pose proof (Z.mod_pos_bound (raw g) 10 ltac:(lia)).
    destruct (Z.eqb_spec (1 + raw (advance g) mod (3 - 1 + 1)) 1); lia.
  - rewrite draw_rng. cbn. split; [lia | done].
Qed.

(** X2: each of the twenty cards can be drawn: for a card [c] with a value
    of 1 to 10 either way, some generator makes [draw] return [c]. *)
Theorem draw_any_card (c : Z) :
  1 <= Z.abs c <= 10 -> exists g, (draw g).1 = c.
Proof.
  intros Hc. exists (mkRng (cards [c]) 0). rewrite draw_at. cbn [fst cards].
  rewrite (Z.mod_small (Z.abs c - 1) 10) by lia.
  destruct (Z.gtb_spec c 0).
  - change (1 + 1 mod 3 =? 1) with false. cbv iota. lia.
  - change (1 + 0 mod 3 =? 1) with true. cbv iota. lia.
Qed.

Lemma draw_any_card_witness : exists g, (draw g).1 = -3.
Proof. apply (draw_any_card (-3)). cbn. lia. Defined.

(** X3: a fresh state is live; the player's sum is the value of the first
    card drawn and the dealer's the value of the second, both taken as black,
    so both sums are in 1..10; four pieces of the tape are used. *)
Theorem new_deals_two_black_cards (g : rng) :
  terminated (new g).1 = false /\
  player (new g).1 = Z.abs (draw g).1 /\
  dealer (new g).1 = Z.abs (draw (draw g).2).1 /\
  1 <= player (new g).1 <= 10 /\ 1 <= dealer (new g).1 <= 10 /\
  pos (new g).2 = (pos g + 4)%nat.
Proof.
  assert (new g = (mkState (Z.abs (draw g).1) (Z.abs (draw (draw g).2).1)
                     false, (draw (draw g).2).2)) as ->.
  { unfold new. destruct (draw g) as [c1 g1]. cbn [fst snd].
    by destruct (draw g1). }
  cbn [fst snd player dealer terminated].
  pose proof (draw_range g). pose proof (draw_range (draw g).2).
  repeat split; try lia. rewrite !draw_rng. cbn [pos advance]. lia.
Qed.

(** X4: a terminal state absorbs every operation: [hit] and [stick] hand
    back the same state without drawing a card (whatever the bound on the
    dealer's draws), and [step] returns the state with reward 0 whatever the
    action, legal or not. *)
Theorem terminal_states_absorb (s : State) (g : rng) (fuel : nat) (a : obj) :
  terminated s = true ->
  hit s g = (s, g) /\ stick fuel s g = Some (s, g) /\
  step s a = Ok (OState s, OInt 0) /\ value s <> ONone.
Proof.
  intros H. unfold hit, stick, step. rewrite H. repeat split.
  destruct (value_cases s) as (_ & _ & _ & _ & [E | [E | E]]); by rewrite E.
Qed.

Lemma terminal_states_absorb_witness :
  hit (mkState 25 15 true) g_10_7 = (mkState 25 15 true, g_10_7).
Proof.
  apply (terminal_states_absorb (mkState 25 15 true) g_10_7 0 (OStr "hit")).
  reflexivity.
Defined.

(** X5: a hit on a live state draws exactly one card: the player's sum moves
    by that card, the dealer's sum stays, and the new state is terminal
    exactly when the player's sum has left 1..21. *)
Theorem hit_draws_one_card (s : State) (g : rng) :
  terminated s = false ->
  (hit s g).2 = (draw g).2 /\
  player (hit s g).1 = player s + (draw g).1 /\
  dealer (hit s g).1 = dealer s /\
  (terminated (hit s g).1 = true <-> ~ 1 <= player (hit s g).1 <= 21).
Proof.
  intros Hlive. destruct (hit_live s g Hlive) as (Hp & Hd & Ht).
  split; [| split; [done | split; [done |]]].
  - unfold hit. rewrite Hlive. by destruct (draw g).
  - rewrite <- Ht. by destruct (terminated (hit s g).1).
Qed.

Lemma hit_draws_one_card_witness :
  player (hit s_10_7 (mkRng (cards [-3]) 0)).1 = 10 + -3.
Proof.
  apply (hit_draws_one_card s_10_7 (mkRng (cards [-3]) 0)). reflexivity.
Defined.

(** X6: the value of the state after a hit on a live state is -1 when the
    player has gone bust and 0 otherwise. *)
Theorem value_after_hit (s : State) (g : rng) :
  terminated s = false ->
  value (hit s g).1
  = if decide (1 <= player s + (draw g).1 <= 21) then OInt 0 else OInt (-1).
Proof.
  intros Hlive. destruct (hit_live s g Hlive) as (Hp & _ & Ht).
  rewrite <- Hp. destruct (value_cases (hit s g).1) as (H0 & Hbust & _).
  case_decide as Hin.
  - apply H0, Ht, Hin.
  - apply Hbust; [| done].
    destruct (terminated (hit s g).1); [done |]. by destruct Hin; apply Ht.
Qed.

Lemma value_after_hit_witness :
  value (hit (mkState 20 7 false) (mkRng (cards [5]) 0)).1 = OInt (-1).
Proof.
  apply (value_after_hit (mkState 20 7 false) (mkRng (cards [5]) 0)).
  reflexivity.
Defined.

Lemma dealer_after_last (n : nat) (d : Z) (g : rng) :
  (dealer_after (S n) d g).1
  = (dealer_after n d g).1 + (draw (dealer_after n d g).2).1.
Proof.
  revert d g. induction n as [| n IH]; intros d g.
  - rewrite dealer_after_S. reflexivity.
  - rewrite dealer_after_S, IH, <- dealer_after_S. reflexivity.
Qed.

(** The total the loop returns, when it has drawn at all, is one card away
    from a total in 1..16. *)
Lemma dealer_loop_bounds (fuel : nat) (d : Z) (g : rng) (r : Z * rng) :
  1 <= d < 17 -> dealer_loop fuel d g = Some r ->
  (-9 <= r.1 <= 0 \/ 17 <= r.1 <= 26) /\ (pos g + 2 <= pos r.2)%nat.
Proof.
  intros Hd Hloop.
  destruct (dealer_loop_sound _ _ _ _ Hloop) as (Hout & n & _ & Hafter & Hin).
  destruct n as [| n]; [cbn in Hafter; subst r; cbn in Hout; lia |].
  pose proof (dealer_after_last n d g) as Hlast.
  pose proof (Hin n ltac:(lia)) as Hprev.
  pose proof (draw_range (dealer_after n d g).2) as Hcard.
  pose proof (proj1 (dealer_after_pos (S n) d g)) as Hpos.
  rewrite Hafter in Hlast, Hpos. split; lia.
Qed.

Lemma stick_live (fuel : nat) (s : State) (g : rng) (r : State * rng) :
  terminated s = false -> stick fuel s g = Some r ->
  terminated r.1 = true /\ player r.1 = player s /\
  ~ 1 <= dealer r.1 < 17 /\
  (1 <= dealer s < 17 ->
   (-9 <= dealer r.1 <= 0 \/ 17 <= dealer r.1 <= 26) /\
   (pos g + 2 <= pos r.2)%nat).
Proof.
  intros Hlive. unfold stick. rewrite Hlive.
  destruct (dealer_loop fuel (dealer s) g) as [[d' g1] |] eqn:Hloop; [| done].
  intros [= <-]. cbn. split; [done |]. split; [done |]. split.
  - by destruct (dealer_loop_sound _ _ _ _ Hloop) as [Hout _].
  - intros Hd. by apply (dealer_loop_bounds fuel (dealer s) g (d', g1)).
Qed.

(** X7: when a live state with a dealer's sum of 1..16 is stuck on, the
    dealer draws at least one card and ends either bust low, with a sum of
    -9..0, or on 17..26 (standing on 17..21, bust above). *)
Theorem stick_dealer_total (fuel : nat) (s : State) (g : rng)
    (r : State * rng) :
  terminated s = false -> 1 <= dealer s <= 16 ->
  stick fuel s g = Some r ->
  (-9 <= dealer r.1 <= 0 \/ 17 <= dealer r.1 <= 26) /\
  (pos g + 2 <= pos r.2)%nat.
Proof.
  intros Hlive Hd Hstick.
  destruct (stick_live fuel s g r Hlive Hstick) as (_ & _ & _ & H).
  apply H. lia.
Qed.

Lemma stick_dealer_total_witness :
  (-9 <= dealer (mkState 10 18 true) <= 0
   \/ 17 <= dealer (mkState 10 18 true) <= 26) /\
  (0 + 2 <= 4)%nat.
Proof.
  apply (stick_dealer_total 2 s_10_7 (mkRng (cards [6; 5]) 0)
           (mkState 10 18 true, mkRng (cards [6; 5]) 4));
    [reflexivity | cbn; lia | reflexivity].
Defined.

(** X8: a dealer who already shows 17 or more, or less than 1, draws
    nothing: [stick] returns at once, even with no draw allowed, the state
    with both sums as they were and the terminal flag set. *)
Theorem stick_stands_at_once (s : State) (g : rng) :
  terminated s = false -> ~ 1 <= dealer s < 17 ->
  stick 0 s g = Some (mkState (player s) (dealer s) true, g).
Proof.
  intros Hlive Hd. unfold stick. rewrite Hlive.
  by rewrite dealer_loop_stop.
Qed.

Lemma stick_stands_at_once_witness :
  stick 0 (mkState 12 18 false) g_10_7 = Some (mkState 12 18 true, g_10_7).
Proof.
  apply (stick_stands_at_once (mkState 12 18 false) g_10_7);
    [reflexivity | cbn; lia].
Defined.

(** X9: the value of the state after a stick from a live state whose
    player's sum is in 1..21: +1 when the dealer is bust, otherwise the sign
    of the player's sum minus the dealer's; a player who sticks below 17
    never ties. *)
Theorem value_after_stick (fuel : nat) (s : State) (g : rng)
    (r : State * rng) :
  terminated s = false -> 1 <= player s <= 21 ->
  stick fuel s g = Some r ->
  value r.1
  = (if decide (1 <= dealer r.1 <= 21)
     then OInt (Z.sgn (player s - dealer r.1)) else OInt 1) /\
  (player s < 17 -> value r.1 <> OInt 0).
Proof.
  intros Hlive Hp Hstick.
  destruct (stick_live fuel s g r Hlive Hstick) as (Ht & Hplayer & Hd & _).
  destruct (value_cases r.1) as (_ & _ & Hbust & Hcmp & _).
  rewrite Hplayer in Hbust, Hcmp.
  assert (value r.1
          = if decide (1 <= dealer r.1 <= 21)
            then OInt (Z.sgn (player s - dealer r.1)) else OInt 1) as Hv.
  { case_decide as Hin.
    - destruct (Hcmp Ht Hp Hin) as (Hgt & Heq & Hlt).
      destruct (Z.lt_total (player s) (dealer r.1)) as [H | [H | H]].
      + rewrite Hlt by done. f_equal. lia.
      + rewrite Heq by done. f_equal. lia.
      + rewrite Hgt by lia. f_equal. lia.
    - by apply Hbust. }
  split; [done |]. intros Hlow. rewrite Hv.
  case_decide; [| done]. intros [= E]. lia.
Qed.

Lemma value_after_stick_witness : value (mkState 10 18 true) <> OInt 0.
Proof.
  apply (value_after_stick 2 s_10_7 (mkRng (cards [6; 5]) 0)
           (mkState 10 18 true, mkRng (cards [6; 5]) 4));
    [reflexivity | cbn; lia | reflexivity | cbn; lia].
Defined.

(** X10: [step] returns in two cases only: from a terminal state, where it
    returns that state and 0 whatever the action, and from a live state when
    the action is the string "__class__", where it returns the class [State]
    and its function [value]; every other action, of any type, makes it raise
    from a live state. *)
Theorem step_returns_when (s : State) (a : obj) (r : obj * obj) :
  step s a = Ok r ->
  (terminated s = true /\ r = (OState s, OInt 0)) \/
  (terminated s = false /\ a = OStr "__class__" /\ r = (OClass, OFunc m_value)).
Proof.
  unfold step. destruct (terminated s); [intros [= <-]; by left |].
  intros H. right. split; [done |].
  destruct a as [z | b | n | | s' | m s' | m | o1 o2 | | n']; try done.
  unfold getattr in H.
  repeat (destruct (String.eqb n _) eqn:E in H;
          [first [by apply String.eqb_eq in E as ->; injection H as <- | done]
          | clear E]).
  by destruct (existsb (String.eqb n) inherited).
Qed.

Lemma step_returns_when_witness :
  (terminated s_10_7 = true /\
   (OClass, OFunc m_value) = (OState s_10_7, OInt 0)) \/
  (terminated s_10_7 = false /\ OStr "__class__" = OStr "__class__" /\
   (OClass, OFunc m_value) = (OClass, OFunc m_value)).
Proof.
  apply (step_returns_when s_10_7 (OStr "__class__") (OClass, OFunc m_value)).
  reflexivity.
Defined.

(** X11: every state that [new], [hit], [stick] and [step] can produce has a
    player's sum in -9..31 and a dealer's sum in -9..26, and while it is live
    the dealer's sum is still the first card, in 1..10. *)
Theorem reachable_sums_bounded (s : State) :
  reachable s ->
  -9 <= player s <= 31 /\ -9 <= dealer s <= 26 /\
  (terminated s = false -> 1 <= player s <= 21 /\ 1 <= dealer s <= 10).
Proof.
  induction 1 as [g | s g _ IH | fuel s g s' g' _ IH Hstick
                  | s a s' r _ IH Hstep].
  - pose proof (new_state g). lia.
  - destruct (terminated s) eqn:Ht.
    + rewrite hit_terminal by done. cbn. rewrite Ht. exact IH.
    + destruct (hit_live s g Ht) as (Hp & Hd & Hlive).
      pose proof (draw_range g). rewrite Hd.
      destruct IH as (_ & _ & IH). specialize (IH eq_refl).
      split; [lia |]. split; [lia |]. intros Hl. apply Hlive in Hl. lia.
  - destruct (terminated s) eqn:Ht.
    + unfold stick in Hstick. rewrite Ht in Hstick.
      injection Hstick as <- _. rewrite Ht. exact IH.
    + destruct IH as (_ & _ & IH). specialize (IH eq_refl).
      destruct (stick_live fuel s g (s', g') Ht Hstick)
        as (Hterm & Hp' & _ & Hd'). cbn in *.
      specialize (Hd' ltac:(lia)).
      split; [lia |]. split; [lia |]. congruence.
  - destruct (step_state _ _ _ _ Hstep) as [-> _]. exact IH.
Qed.

Lemma reachable_sums_bounded_witness :
  -9 <= player (hit (new (mkRng (cards [10; 7; 3]) 0)).1
                  (new (mkRng (cards [10; 7; 3]) 0)).2).1 <= 31.
Proof.
  refine (proj1 (reachable_sums_bounded
                   (hit (new (mkRng (cards [10; 7; 3]) 0)).1
                        (new (mkRng (cards [10; 7; 3]) 0)).2).1 _)).
  apply reach_hit, reach_new.
Defined.

End Easy21More.

(** * Further properties of the control script *)

Module MonteCarloMore.
Import Easy21 Easy21Facts MonteCarlo MonteCarloFacts.

Section Floats.

Context {float : Type}.
Variable float0 : float.
Variable truediv : Z -> Z -> float.
Variable flt : float -> float -> bool.
Variable unit_float : Z -> float.

Local Abbreviation store := (@store float).
Local Abbreviation next_action := (next_action float0 truediv flt unit_float).
Local Abbreviation trial := (trial float0 truediv flt unit_float).
Local Abbreviation trained := (trained float0 truediv flt unit_float).

(** X12: the two counter statements of the loop body add one to [N[state]]
    and one to [N[(state, action)]], leave every other counter as it was, and
    do not touch [V]. *)
Theorem count_visit_effect (s : State) (a : string) (st : store) :
  count (count_visit s a st) (KState s) = count st (KState s) + 1 /\
  count (count_visit s a st) (KPair s a) = count st (KPair s a) + 1 /\
  (forall k, k <> KState s -> k <> KPair s a ->
             count (count_visit s a st) k = count st k) /\
  V (count_visit s a st) = V st.
Proof.
  repeat split.
  - rewrite count_count_visit, decide_True, decide_False by done. lia.
  - rewrite count_count_visit, decide_False, decide_True by done. lia.
  - intros k H1 H2. rewrite count_count_visit, !decide_False by done. lia.
Qed.

(** X13: [epsilon(state)] is 100 / (100 + N[state]), a [ZeroDivisionError]
    exactly when the counter is -100; reading the counter stores it under the
    state (0 for a state never seen) and changes nothing else. *)
Theorem epsilon_reads_the_counter (st : store) (s : State) :
  (epsilon truediv st s).2
  = (if decide (count st (KState s) = -100) then Raise ZeroDivisionError
     else Ok (truediv 100 (100 + count st (KState s)))) /\
  N (epsilon truediv st s).1 !! KState s = Some (count st (KState s)) /\
  (forall k, k <> KState s -> N (epsilon truediv st s).1 !! k = N st !! k) /\
  V (epsilon truediv st s).1 = V st.
Proof.
  unfold epsilon, count.
  pose proof (dd_get_fst 0 (KState s) (N st)) as Hn.
  pose proof (dd_get_lookup 0 (KState s) (KState s) (N st)) as Hk.
  pose proof (fun k => dd_get_lookup 0 (KState s) k (N st)) as Hother.
  destruct (dd_get 0 (KState s) (N st)) as [n N1]. cbn [fst snd] in *.
  rewrite decide_True in Hk by done. subst n. unfold N0.
  assert (forall k, k <> KState s -> N1 !! k = N st !! k) as Hne.
  { intros k Hk'. rewrite Hother. by rewrite decide_False. }
  destruct (Z.eqb_spec (100 + default 0 (N st !! KState s)) 0);
    case_decide; try lia; done.
Qed.

(** X14: [alpha(state, action)] is 1 / N[(state, action)], a
    [ZeroDivisionError] exactly when the counter is 0, as it is for a pair
    never visited; reading the counter stores it under the pair and changes
    nothing else. *)
Theorem alpha_divides_by_the_counter (st : store) (s : State) (a : string) :
  (alpha truediv st s a).2
  = (if decide (count st (KPair s a) = 0) then Raise ZeroDivisionError
     else Ok (truediv 1 (count st (KPair s a)))) /\
  N (alpha truediv st s a).1 !! KPair s a = Some (count st (KPair s a)) /\
  (forall k, k <> KPair s a -> N (alpha truediv st s a).1 !! k = N st !! k) /\
  V (alpha truediv st s a).1 = V st.
Proof.
  unfold alpha, count.
  pose proof (dd_get_fst 0 (KPair s a) (N st)) as Hn.
  pose proof (dd_get_lookup 0 (KPair s a) (KPair s a) (N st)) as Hk.
  pose proof (fun k => dd_get_lookup 0 (KPair s a) k (N st)) as Hother.
  destruct (dd_get 0 (KPair s a) (N st)) as [n N1]. cbn [fst snd] in *.
  rewrite decide_True in Hk by done. subst n.
  assert (forall k, k <> KPair s a -> N1 !! k = N st !! k) as Hne.
  { intros k Hk'. rewrite Hother. by rewrite decide_False. }
  destruct (Z.eqb_spec (default 0 (N st !! KPair s a)) 0);
    case_decide; try lia; done.
Qed.

Lemma epsilon_values (st : store) (s : State) :
  V (epsilon truediv st s).1 = V st.
Proof.
  unfold epsilon. destruct (dd_get 0 (KState s) (N st)) as [n N1].
  by case_match.
Qed.

Lemma epsilon_defined_value (st : store) (s : State) :
  count st (KState s) <> -100 ->
  (epsilon truediv st s).2 = Ok (truediv 100 (100 + count st (KState s))).
Proof.
  intros Hn. unfold epsilon, count in *.
  pose proof (dd_get_fst 0 (KState s) (N st)) as H.
  destruct (dd_get 0 (KState s) (N st)) as [n N1]. cbn [fst] in H. subst n.
  unfold N0. by destruct (Z.eqb_spec (100 + default 0 (N st !! KState s)) 0);
    [lia |].
Qed.

(** X15: with a counter of the state other than -100, [next_action] draws
    one float: when it is below epsilon it draws once more and returns
    "hit" or "stick" as that draw is even or odd; otherwise it returns the
    greedy action, "stick" when [V[(state, "hit")] < V[(state, "stick")]] and
    "hit" otherwise (so "hit" on a tie), missing estimates counting as
    [float()]. *)
Theorem next_action_branches (st : store) (g : rng) (s : State) :
  count st (KState s) <> -100 ->
  (flt (unit_float (raw g)) (truediv 100 (100 + count st (KState s))) = true ->
   (next_action st g s).2
   = Ok (if raw (advance g) mod 2 =? 0 then "hit" else "stick") /\
   (next_action st g s).1.2 = advance (advance g)) /\
  (flt (unit_float (raw g)) (truediv 100 (100 + count st (KState s))) = false ->
   (next_action st g s).2
   = Ok (if flt (default float0 (V st !! KPair s "hit"))
              (default float0 (V st !! KPair s "stick"))
         then "stick" else "hit") /\
   (next_action st g s).1.2 = advance g).
Proof.
  intros Hn. unfold MonteCarlo.next_action.
  pose proof (epsilon_defined_value st s Hn) as He.
  pose proof (epsilon_values st s) as HV.
  destruct (epsilon truediv st s) as [st1 re]. cbn [fst snd] in *. subst re.
  unfold random. split; intros Hlt; rewrite Hlt.
  - cbn. split; [| done]. f_equal.
    change (raw (advance g)) with (tape g (S (pos g))).
    change (Z.of_nat 2) with 2.
    pose proof (Z.mod_pos_bound (tape g (S (pos g))) 2 ltac:(lia)) as Hb.
    destruct (Z.eqb_spec (tape g (S (pos g)) mod 2) 0) as [-> | Hodd];
      [done |].
    by replace (tape g (S (pos g)) mod 2) with 1 by lia.
  - unfold actions. cbn [max_scan].
    pose proof (dd_get_fst float0 (KPair s "hit") (V st1)) as Hh.
    pose proof (dd_get_snd float0 (KPair s "hit") (KPair s "stick") (V st1))
      as Hs.
    destruct (dd_get float0 (KPair s "hit") (V st1)) as [kh V1].
    cbn [fst snd V N] in *.
    pose proof (dd_get_fst float0 (KPair s "stick") V1) as Hs'.
    destruct (dd_get float0 (KPair s "stick") V1) as [ks V2].
    cbn [fst snd] in *. rewrite Hs in Hs'. subst kh ks. rewrite HV.
    by destruct (flt (default float0 (V st !! KPair s "hit"))
                   (default float0 (V st !! KPair s "stick"))).
Qed.

(** X16: from a store that runs of [trial] have produced, [trial] never
    returns: it needs at least one iteration of its loop, and in the first
    one it ends in the [AttributeError] of [step], after adding one to the
    counter of the state dealt and one to the counter of that state with the
    action chosen, "hit" or "stick", and to no other counter. *)
Theorem trial_always_raises (fuel : nat) (st : store) (g : rng) :
  trained st ->
  trial 0 st g = None /\
  exists a st' g',
    a ∈ actions /\
    trial (S fuel) st g = Some (st', g', Raise AttributeError) /\
    forall k, count st' k
              = count st k + (if decide (KState (new g).1 = k) then 1 else 0)
                + (if decide (KPair (new g).1 a = k) then 1 else 0).
Proof.
  intros Htrained. split.
  - destruct (trial 0 st g) as [[[st' g'] r] |] eqn:E; [| done].
    exfalso. unfold MonteCarlo.trial in E.
    destruct (new_state g) as (Hlive & _). destruct (new g) as [s g0].
    cbn in Hlive, E. by rewrite Hlive in E.
  - destruct (trial_raises float0 truediv flt unit_float fuel st g Htrained)
      as (a & Ha & _ & E).
    eexists a, _, _. split; [done |]. split; [exact E |].
    intros k. rewrite count_count_visit.
    by rewrite (proj1 (next_action_spec float0 truediv flt unit_float
                         st (new g).2 (new g).1) k).
Qed.

(** X17: in every store that runs of [trial] have produced, the counter of
    a state is the sum of the counters of its two pairs, and no pair with
    another action was ever counted. *)
Theorem trained_counts_add_up (st : store) (s : State) :
  trained st ->
  count st (KState s) = count st (KPair s "hit") + count st (KPair s "stick") /\
  forall a, a ∉ actions -> count st (KPair s a) = 0.
Proof.
  induction 1 as [| fuel st g st' g' r Htrained IH Htrial]; [done |].
  destruct (trial_result _ _ _ _ _ _ _ _ _ _ Htrained Htrial)
    as (_ & a & Ha & -> & _).
  destruct IH as [IHsum IHnone].
  pose proof (fun k => proj1 (next_action_spec float0 truediv flt unit_float
                                st (new g).2 (new g).1) k) as Hsame.
  split.
  - rewrite !count_count_visit, !Hsame, IHsum.
    unfold actions in Ha. rewrite !elem_of_cons in Ha.
    destruct Ha as [-> | [-> | Ha]]; [| | by apply elem_of_nil in Ha];
      repeat case_decide; simplify_eq; lia.
  - intros b Hb. rewrite count_count_visit, Hsame, (IHnone b Hb).
    rewrite decide_False by done.
    rewrite decide_False; [lia |]. intros [= _ ->]. done.
Qed.

Lemma dd_get_values {A : Type} (d : A) (k : key) (m : gmap key A) :
  (forall k' v, m !! k' = Some v -> v = d) ->
  forall k' v, (dd_get d k m).2 !! k' = Some v -> v = d.
Proof.
  intros Hm k' v. rewrite dd_get_lookup. case_decide; [| apply Hm].
  intros [= <-]. destruct (m !! k) eqn:E; cbn; eauto.
Qed.

(** [next_action] only ever stores [float()] in [V]. *)
Lemma next_action_values (st : store) (g : rng) (s : State) :
  (forall k v, V st !! k = Some v -> v = float0) ->
  forall k v, V (next_action st g s).1.1 !! k = Some v -> v = float0.
Proof.
  intros Hzero. unfold MonteCarlo.next_action.
  pose proof (epsilon_values st s) as HV.
  destruct (epsilon truediv st s) as [st1 re]. cbn [fst snd] in *.
  rewrite <- HV in Hzero.
  destruct re as [e | x]; [| done].
  destruct (random unit_float g) as [u g1]. destruct (flt u e); [done |].
  unfold actions. cbn [max_scan].
  pose proof (dd_get_values float0 (KPair s "hit") (V st1) Hzero) as Hzero1.
  destruct (dd_get float0 (KPair s "hit") (V st1)) as [kh V1].
  cbn [fst snd V N] in *.
  pose proof (dd_get_values float0 (KPair s "stick") V1 Hzero1) as Hzero2.
  destruct (dd_get float0 (KPair s "stick") V1) as [ks V2].
  cbn [fst snd] in *. by destruct (flt kh ks).
Qed.

(** X18: the script learns nothing: in every store that runs of [trial]
    have produced, each estimate held in [V] is [float()], the value it was
    first read with. *)
Theorem trained_values_zero (st : store) (k : key) (v : float) :
  trained st -> V st !! k = Some v -> v = float0.
Proof.
  intros Htrained. revert k v.
  induction Htrained as [| fuel st g st' g' r Htrained IH Htrial]; [done |].
  destruct (trial_result _ _ _ _ _ _ _ _ _ _ Htrained Htrial)
    as (_ & a & _ & -> & _).
  intros k v. cbn [V count_visit]. by apply next_action_values.
Qed.

End Floats.

(** ** Sample runs *)

Lemma q_trial_run_again :
  q_trial 1 q_store1 (mkRng greedy_tape 0)
  = Some (q_store2, mkRng greedy_tape 5, Raise AttributeError).
Proof. vm_compute. reflexivity. Qed.

Lemma q_trained_twice : trained 0%Q q_truediv q_lt q_unit q_store2.
Proof.
  eapply trained_trial; [apply q_trained_once | exact q_trial_run_again].
Qed.

Lemma next_action_branches_witness :
  (q_next_action store0 (mkRng (cards [10; 7]) 4) s_10_7).2
  = Ok (if raw (advance (mkRng (cards [10; 7]) 4)) mod 2 =? 0
        then "hit" else "stick").
Proof.
  destruct (next_action_branches 0%Q q_truediv q_lt q_unit store0
              (mkRng (cards [10; 7]) 4) s_10_7) as [H _].
  - vm_compute. discriminate.
  - apply H. vm_compute. reflexivity.
Defined.

Lemma trial_always_raises_witness : q_trial 0 store0 g_10_7 = None.
Proof.
  apply (trial_always_raises 0%Q q_truediv q_lt q_unit 0 store0 g_10_7).
  apply trained_start.
Defined.

Lemma trained_counts_add_up_witness :
  count q_store2 (KState s_10_7)
  = count q_store2 (KPair s_10_7 "hit") + count q_store2 (KPair s_10_7 "stick").
Proof.
  apply (trained_counts_add_up 0%Q q_truediv q_lt q_unit).
  apply q_trained_twice.
Defined.

Lemma trained_values_zero_witness :
  exists v, V q_store2 !! KPair s_10_7 "stick" = Some v /\ v = 0%Q.
Proof.
  exists 0%Q. split; [vm_compute; reflexivity |].
  apply (trained_values_zero 0%Q q_truediv q_lt q_unit q_store2
           (KPair s_10_7 "stick") 0%Q).
  - apply q_trained_twice.
  - vm_compute. reflexivity.
Defined.

End MonteCarloMore.
